(** * typefusion: Postgres type descriptors, value-to-type inference and the
    CLI handler

    A shallow embedding of
    - [packages/typefusion/src/db/postgres/types.ts]: the [PgType] class, the
      [pgType] factories, [valueToPostgresType] and [postgresIdColumn];
    - [packages/typefusion/src/cli.ts]: the handler of the [typefusion]
      command.

    JavaScript numbers are IEEE 754 binary64 values ([spec_float] restricted
    to the valid ones), [PgType] instances live in a heap of mutable objects
    addressed by references, and an [Effect.gen] computation ends in a
    success, a failure with a typed error, or a defect when its body throws. *)

From Stdlib Require Import ZArith String Ascii List Lia.
From Stdlib Require Import Floats.SpecFloat.
From stdpp Require Import gmap strings.

Local Open Scope string_scope.
Local Open Scope Z_scope.

(** ** JavaScript numbers *)

Module Number.

Definition prec : Z := 53.
Definition emax : Z := 1024.

(** A Number is a binary64 value in canonical form. *)
Record t : Type := mk {
  repr : spec_float;
  valid : valid_binary prec emax repr = true
}.

(** [z] is the mathematical value of [f]: [(-1)^s * m * 2^e = z]. *)
Definition signed (s : bool) (m : Z) : Z := if s then - m else m.

Definition is_Z (f : spec_float) (z : Z) : Prop :=
  match f with
  | S754_zero _ => z = 0
  | S754_finite s m e =>
      if 0 <=? e then z = signed s (Z.pos m * 2 ^ e)
      else signed s (Z.pos m) = z * 2 ^ (- e)
  | S754_infinity _ | S754_nan => False
  end.

(** The mathematical value of [x] is an integer. *)
Definition integral (x : t) : Prop := exists z, is_Z (repr x) z.

(** [Number.isInteger] on a Number: finite and without fractional part. *)
Definition isIntegralNumber (f : spec_float) : bool :=
  match f with
  | S754_zero _ => true
  | S754_finite _ m e => (0 <=? e) || (Z.pos m mod 2 ^ (- e) =? 0)
  | S754_infinity _ | S754_nan => false
  end.

(** [a >= b] and [a <= b] on Numbers; both are false when an operand is NaN. *)
Definition ge (a b : t) : bool :=
  match SFcompare (repr a) (repr b) with
  | Some (Gt | Eq) => true
  | _ => false
  end.

Definition le (a b : t) : bool :=
  match SFcompare (repr a) (repr b) with
  | Some (Lt | Eq) => true
  | _ => false
  end.

(** Numeric literals, rounded to nearest even as the parser does. *)
Definition of_Z (z : Z) : spec_float := binary_normalize prec emax z 0 false.

Definition NaN : t := mk S754_nan eq_refl.
Definition POSITIVE_INFINITY : t := mk (S754_infinity false) eq_refl.
Definition NEGATIVE_INFINITY : t := mk (S754_infinity true) eq_refl.
Definition zero : t := mk (S754_zero false) eq_refl.
Definition negative_zero : t := mk (S754_zero true) eq_refl.

End Number.

Abbreviation number := Number.t.

(** ** Runtime values *)

(** How the evaluation of an expression completes: with a value, or by
    throwing. *)
Inductive Completion (T A : Type) : Type :=
| Normal (a : A)
| Throw (thrown : T).

Arguments Normal {T A} a.
Arguments Throw {T A} thrown.

(** [VDate], [VArray], [VObject] and [VFunction] are the objects with the
    prototype chain their constructor gives them. [VExotic] is every other
    object: a [Proxy], or an object or function whose prototype chain the
    program has set. Of such an object two things are observable here:
    whether it is callable, and how the prototype-chain walk of
    [instanceof Date] completes on it: it reaches [Date.prototype], it ends
    without reaching it, or it throws (a revoked [Proxy], a [getPrototypeOf]
    trap that throws). *)
#[warnings="-register-all"]
Inductive JSValue : Type :=
| VUndefined
| VNull
| VBoolean (b : bool)
| VNumber (n : number)
| VBigInt (z : Z)
| VString (s : string)
| VSymbol (description : option string)
| VFunction (name : string)
| VDate (time : number)
| VArray (items : list JSValue)
| VObject (props : list (string * JSValue))
| VExotic (callable : bool) (prototypeWalk : Completion JSValue bool).

(** The [typeof] operator. *)
Definition typeof (v : JSValue) : string :=
  match v with
  | VUndefined => "undefined"
  | VNull => "object"
  | VBoolean _ => "boolean"
  | VNumber _ => "number"
  | VBigInt _ => "bigint"
  | VString _ => "string"
  | VSymbol _ => "symbol"
  | VFunction _ => "function"
  | VDate _ | VArray _ | VObject _ => "object"
  | VExotic callable _ => if callable then "function" else "object"
  end.

(** [value === null] and [value === undefined]. *)
Definition is_null (v : JSValue) : bool :=
  match v with VNull => true | _ => false end.

Definition is_undefined (v : JSValue) : bool :=
  match v with VUndefined => true | _ => false end.

(** [value instanceof Date]: false on a primitive; on an object the walk up
    its prototype chain, which can throw. *)
Definition instanceof_Date (v : JSValue) : Completion JSValue bool :=
  match v with
  | VDate _ => Normal true
  | VExotic _ prototypeWalk => prototypeWalk
  | _ => Normal false
  end.

(** [Number.isInteger(value)]: false for every value that is not a Number. *)
Definition Number_isInteger (v : JSValue) : bool :=
  match v with
  | VNumber n => Number.isIntegralNumber (Number.repr n)
  | _ => false
  end.

(** [value >= k] and [value <= k] for a value the [typeof] switch has
    narrowed to a Number. *)
Definition value_ge (v : JSValue) (k : number) : bool :=
  match v with VNumber n => Number.ge n k | _ => false end.

Definition value_le (v : JSValue) (k : number) : bool :=
  match v with VNumber n => Number.le n k | _ => false end.

(** ** Effects that can fail *)

(** The exit of an effect: a value, a typed failure, or a defect, which is
    what an exception thrown in the body of [Effect.gen] becomes. *)
Inductive Effect (A E : Type) : Type :=
| succeed (a : A)
| fail (e : E)
| die (defect : JSValue).

Arguments succeed {A E} a.
Arguments fail {A E} e.
Arguments die {A E} defect.

(** [Data.TaggedError("UnsupportedJSTypePostgresConversionError")] with its
    two fields. *)
Record UnsupportedJSTypePostgresConversionError : Type := {
  cause : JSValue;
  message : string
}.

(** ** [valueToPostgresType] *)

(** PostgreSQL INTEGER range: -2,147,483,648 to +2,147,483,647 *)
Definition MIN_INTEGER : number :=
  Number.mk (S754_finite true 4503599627370496 (-21)) eq_refl.

Definition MAX_INTEGER : number :=
  Number.mk (S754_finite false 9007199250546688 (-22)) eq_refl.

Definition valueToPostgresType (value : JSValue)
  : Effect string UnsupportedJSTypePostgresConversionError :=
  if is_null value || is_undefined value then succeed "TEXT"
  else
    match instanceof_Date value with
    | Throw thrown => die thrown
    | Normal true => succeed "TIMESTAMP WITH TIME ZONE"
    | Normal false =>
        match typeof value with
        | "object" => succeed "JSONB"
        | "string" => succeed "TEXT"
        | "bigint" => succeed "BIGINT"
        | "number" =>
            if Number_isInteger value then
              if value_ge value MIN_INTEGER && value_le value MAX_INTEGER
              then succeed "INTEGER"
              else succeed "BIGINT"
            else succeed "DOUBLE PRECISION"
        | "boolean" => succeed "BOOLEAN"
        | _ =>
            fail {| cause := VNull;
                    message := "Unsupported type for value provided in script result: "
                               ++ typeof value |}
        end
    end.

(** ** The heap of [PgType] instances *)

(** The fields of a [PgType] instance. [_type] is a phantom: at run time it
    always holds the string ["PgType"]. *)
Record PgTypeObj : Type := {
  _type : string;
  _nullable : bool;
  _postgresType : string
}.

(** A reference to a [PgType] instance. *)
Abbreviation loc := positive.

Abbreviation heap := (gmap loc PgTypeObj).

(** Computations over the heap; [None] is a dereference of a reference that
    points to no object, which no JavaScript program can hold. *)
Definition M (A : Type) : Type := heap -> option (A * heap).

#[global] Instance M_ret : MRet M := fun A (a : A) (h : heap) => Some (a, h).

#[global] Instance M_bind : MBind M :=
  fun A B (f : A -> M B) (m : M A) (h : heap) =>
    match m h with
    | Some (a, h') => f a h'
    | None => None
    end.

Definition alloc (o : PgTypeObj) : M loc :=
  fun h => let l := fresh (dom h) in Some (l, <[l := o]> h).

Definition deref (l : loc) : M PgTypeObj :=
  fun h => match h !! l with Some o => Some (o, h) | None => None end.

Definition update (l : loc) (o : PgTypeObj) : M unit :=
  fun h => match h !! l with Some _ => Some (tt, <[l := o]> h) | None => None end.

(** ** [class PgType] *)

Module PgType.

(** [new PgType(postgresType)] *)
Definition new (postgresType : string) : M loc :=
  alloc {| _type := "PgType"; _nullable := true; _postgresType := postgresType |}.

Definition notNull (this : loc) : M loc :=
  o ← deref this;
  update this {| _type := _type o; _nullable := false;
                _postgresType := _postgresType o |};;
  mret this.

Definition nullable (this : loc) : M loc :=
  o ← deref this;
  update this {| _type := _type o; _nullable := true;
                _postgresType := _postgresType o |};;
  mret this.

Definition getNullable (this : loc) : M bool :=
  o ← deref this; mret (_nullable o).

Definition getPostgresType (this : loc) : M string :=
  o ← deref this; mret (_postgresType o).

Definition getType (this : loc) : M string :=
  o ← deref this; mret (_type o).

Definition toString (this : loc) : M string :=
  o ← deref this;
  mret (_postgresType o ++ (if _nullable o then " " else " NOT NULL")).

End PgType.

(** ** The [pgType] factories *)

Inductive pgTypeKey : Type :=
| text | integer | boolean | date | dateTime | bigint | smallint | real
| doublePrecision | smallserial | serial | bigserial | numeric | decimal
| money
| char (n : number)
| varchar (n : number)
| time | interval | point | line | lseg | box | polygon | circle | inet
| cidr | macaddr | tsvector | tsquery | uuid | json | jsonb | xml | bytea.

Section pgType.

(** The string a template literal substitutes for a Number
    ([Number::toString] of ECMAScript). *)
Variable Number_toString : number -> string.

(** The argument each factory passes to the [PgType] constructor. *)
Definition pgTypeName (k : pgTypeKey) : string :=
  match k with
  | text => "text"
  | integer => "integer"
  | boolean => "boolean"
  | date => "date"
  | dateTime => "timestamp"
  | bigint => "bigint"
  | smallint => "smallint"
  | real => "real"
  | doublePrecision => "double precision"
  | smallserial => "smallserial"
  | serial => "serial"
  | bigserial => "bigserial"
  | numeric => "numeric"
  | decimal => "decimal"
  | money => "money"
  | char n => "char(" ++ Number_toString n ++ ")"
  | varchar n => "varchar(" ++ Number_toString n ++ ")"
  | time => "time"
  | interval => "interval"
  | point => "point"
  | line => "line"
  | lseg => "lseg"
  | box => "box"
  | polygon => "polygon"
  | circle => "circle"
  | inet => "inet"
  | cidr => "cidr"
  | macaddr => "macaddr"
  | tsvector => "tsvector"
  | tsquery => "tsquery"
  | uuid => "uuid"
  | json => "json"
  | jsonb => "jsonb"
  | xml => "xml"
  | bytea => "bytea"
  end.

(** [pgType.k()], respectively [pgType.k(n)]. *)
Definition pgType (k : pgTypeKey) : M loc := PgType.new (pgTypeName k).

End pgType.

(** ** [postgresIdColumn] *)

(** [a || b] where [a] is a string or [undefined]: the empty string and
    [undefined] are falsy. *)
Definition string_or (a : option string) (b : string) : string :=
  match a with
  | Some EmptyString | None => b
  | Some s => s
  end.

Definition postgresIdColumn (type : option loc) : M string :=
  t ← match type with
      | Some this => s ← PgType.getPostgresType this; mret (Some s)
      | None => mret None
      end;
  let idType := string_or t "BIGINT GENERATED ALWAYS AS IDENTITY" in
  mret ("id " ++ idType ++ " PRIMARY KEY").

(** ** The command handler of [cli.ts] *)

Module Cli.

(** What the handler of [Command.make] receives: the directory argument and
    the three options, each wrapped by [Options.optional]. *)
Record Parsed : Type := {
  directory : string;
  ignoreGlob : option (list string);
  verbose : option bool;
  dryRun : option bool
}.

End Cli.

(** The configuration object passed to [typefusion]. *)
Record TypefusionConfig : Type := {
  directory : string;
  ignoreGlob : list string;
  verbose : bool;
  alwaysPrintExecutionGraph : bool;
  dryRun : bool
}.

(** [Option.getOrElse(self, onNone)] *)
Definition Option_getOrElse {A : Type} (self : option A) (onNone : unit -> A) : A :=
  match self with
  | Some a => a
  | None => onNone tt
  end.

Section command.

(** The core entry point, imported from [./typefusion.js]. *)
Context {R : Type}.
Variable typefusion : TypefusionConfig -> R.

Definition command (args : Cli.Parsed) : R :=
  typefusion {|
    directory := Cli.directory args;
    ignoreGlob := Option_getOrElse (Cli.ignoreGlob args) (fun _ => []);
    verbose := Option_getOrElse (Cli.verbose args) (fun _ => false);
    alwaysPrintExecutionGraph := true;
    dryRun := Option_getOrElse (Cli.dryRun args) (fun _ => false)
  |}.

End command.

(** ** Auxiliary notions used to state the properties *)


(** The descriptor [o] with its nullability flag set to [b]. *)
Definition with_nullable (b : bool) (o : PgTypeObj) : PgTypeObj :=
  {| _type := _type o; _nullable := b; _postgresType := _postgresType o |}.

(** The Number literals [5000000000] and [3.14]. *)
Definition five_billion : number :=
  Number.mk (S754_finite false 5242880000000000 (-20)) eq_refl.

Definition three_point_fourteen : number :=
  Number.mk (S754_finite false 7070651414971679 (-51)) eq_refl.






(** Every object of the heap carries the run-time tag the constructor
    writes into [_type]. *)
Definition well_formed (h : heap) : Prop :=
  forall (l : loc) (o : PgTypeObj), h !! l = Some o -> _type o = "PgType".

(** [Number.MAX_VALUE], the largest finite Number. *)
Definition MAX_VALUE : number :=
  Number.mk (S754_finite false 9007199254740991 971) eq_refl.

(** * Properties *)

(** ** Binary64 values *)

Lemma literals_are_rounded :
  Number.repr MIN_INTEGER = Number.of_Z (-2147483648) /\
  Number.repr MAX_INTEGER = Number.of_Z 2147483647 /\
  Number.repr five_billion = Number.of_Z 5000000000 /\
  Number.repr three_point_fourteen
  = SFdiv Number.prec Number.emax (Number.of_Z 314) (Number.of_Z 100).
Proof. repeat split; vm_compute; reflexivity. Qed.

Lemma digits2_pos_bounds (p : positive) :
  2 ^ (Z.pos (digits2_pos p) - 1) <= Z.pos p < 2 ^ Z.pos (digits2_pos p).
Proof.
  induction p as [p IH | p IH |]; cbn [digits2_pos].
  - rewrite Pos2Z.inj_succ.
    replace (Z.succ (Z.pos (digits2_pos p)) - 1)
      with (Z.succ (Z.pos (digits2_pos p) - 1)) by lia.
    rewrite !Z.pow_succ_r by lia. lia.
  - rewrite Pos2Z.inj_succ.
    replace (Z.succ (Z.pos (digits2_pos p)) - 1)
      with (Z.succ (Z.pos (digits2_pos p) - 1)) by lia.
    rewrite !Z.pow_succ_r by lia. lia.
  - cbn. lia.
Qed.

(** A valid finite binary64 has its exponent in [-1074, 971] and a mantissa
    below [2^53], which is at least [2^52] unless the value is subnormal. *)
Lemma valid_finite (s : bool) (m : positive) (e : Z) :
  valid_binary Number.prec Number.emax (S754_finite s m e) = true ->
  -1074 <= e <= 971 /\ Z.pos m < 2 ^ 53 /\ (-1074 < e -> 2 ^ 52 <= Z.pos m).
Proof.
  unfold valid_binary, bounded, canonical_mantissa, fexp, emin,
    Number.prec, Number.emax.
  intros H. apply andb_prop in H. destruct H as [Hc Hb].
  apply Z.eqb_eq in Hc. apply Z.leb_le in Hb.
  pose proof (digits2_pos_bounds m) as [Hlo Hhi].
  set (d := Z.pos (digits2_pos m)) in *.
  assert (Hd : d <= 53) by lia.
  split; [lia|]. split.
  - eapply Z.lt_le_trans; [exact Hhi|]. apply Z.pow_le_mono_r; lia.
  - intros He. assert (d = 53) as -> by lia. exact Hlo.
Qed.

(** [Number.isInteger] holds exactly of the Numbers whose value is an
    integer. *)
Lemma isIntegralNumber_spec (f : spec_float) :
  Number.isIntegralNumber f = true <-> exists z, Number.is_Z f z.
Proof.
  destruct f as [s | s | | s m e]; cbn [Number.isIntegralNumber Number.is_Z].
  - split; [exists 0; reflexivity | reflexivity].
  - split; [discriminate | intros [_ []]].
  - split; [discriminate | intros [_ []]].
  - destruct (Z.leb_spec 0 e) as [He | He]; cbn [orb].
    + split; [eexists; reflexivity | reflexivity].
    + assert (Hp : 0 < 2 ^ (- e)) by (apply Z.pow_pos_nonneg; lia).
      rewrite Z.eqb_eq. split.
      * intros Hm. apply Z.div_exact in Hm; [|lia].
        exists (Number.signed s (Z.pos m / 2 ^ (- e))).
        destruct s; cbn [Number.signed]; lia.
      * intros [z Hz].
        assert (Z.pos m = Number.signed s z * 2 ^ (- e)) as ->
          by (destruct s; cbn [Number.signed] in *; lia).
        apply Z.mod_mul. lia.
Qed.

Lemma pow2_le (a b : Z) : 0 <= a <= b -> 2 ^ a <= 2 ^ b.
Proof. intros H. apply Z.pow_le_mono_r; lia. Qed.

(** On a Number of integer value [z], the two comparisons of the source
    decide [-2147483648 <= z <= 2147483647]. *)
Lemma in_integer_range_spec (n : number) (z : Z) :
  Number.is_Z (Number.repr n) z ->
  Number.ge n MIN_INTEGER && Number.le n MAX_INTEGER
  = (-2147483648 <=? z) && (z <=? 2147483647).
Proof.
  destruct n as [f Hv]. unfold Number.ge, Number.le.
  cbn [Number.repr MIN_INTEGER MAX_INTEGER].
  destruct f as [s | s | | s m e]; cbn [Number.is_Z]; try contradiction.
  - intros ->. destruct s; reflexivity.
  - apply valid_finite in Hv. destruct Hv as (He & Hm & Hn).
    intros Hz.
    destruct s; cbn [SFcompare Number.signed] in *.
    + (* negative values are below MAX_INTEGER *)
      rewrite andb_true_r.
      assert (Hneg : (z <=? 2147483647) = true).
      { apply Z.leb_le. destruct (Z.leb_spec 0 e).
        - pose proof (Z.pow_pos_nonneg 2 e). nia.
        - pose proof (Z.pow_pos_nonneg 2 (- e)). nia. }
      rewrite Hneg, andb_true_r.
      destruct (Z.compare_spec e (-21)) as [-> | Hlt | Hgt].
      * change (- Z.pos m = z * 2097152) in Hz.
        rewrite Pos.compare_cont_spec. cbn [Pos.switch_Eq].
        rewrite Pos2Z.inj_compare.
        specialize (Hn ltac:(lia)). change (2 ^ 52) with 4503599627370496 in Hn.
        destruct (Z.compare_spec (Z.pos m) 4503599627370496) as [Hc | Hc | Hc];
          cbn [CompOpp]; symmetry; [apply Z.leb_le | lia | apply Z.leb_gt]; lia.
      * symmetry. apply Z.leb_le.
        destruct (Z.leb_spec 0 e); [lia|].
        pose proof (pow2_le 22 (- e) ltac:(lia)) as Hp.
        change (2 ^ 22) with 4194304 in Hp.
        change (2 ^ 53) with 9007199254740992 in Hm.
        nia.
      * symmetry. apply Z.leb_gt. specialize (Hn ltac:(lia)).
        change (2 ^ 52) with 4503599627370496 in Hn.
        destruct (Z.leb_spec 0 e).
        -- pose proof (pow2_le 0 e ltac:(lia)) as Hp.
           change (2 ^ 0) with 1 in Hp. nia.
        -- pose proof (pow2_le (- e) 20 ltac:(lia)) as Hp.
           pose proof (Z.pow_pos_nonneg 2 (- e) ltac:(lia) ltac:(lia)).
           change (2 ^ 20) with 1048576 in Hp. nia.
    + (* positive values are above MIN_INTEGER *)
      assert (Hpos : (-2147483648 <=? z) = true).
      { apply Z.leb_le. destruct (Z.leb_spec 0 e).
        - pose proof (Z.pow_pos_nonneg 2 e). nia.
        - pose proof (Z.pow_pos_nonneg 2 (- e)). nia. }
      rewrite Hpos. cbn [andb].
      destruct (Z.compare_spec e (-22)) as [-> | Hlt | Hgt].
      * change (Z.pos m = z * 4194304) in Hz.
        rewrite Pos.compare_cont_spec. cbn [Pos.switch_Eq].
        rewrite Pos2Z.inj_compare.
        destruct (Z.compare_spec (Z.pos m) 9007199250546688) as [Hc | Hc | Hc];
          symmetry; [apply Z.leb_le | apply Z.leb_le | apply Z.leb_gt]; lia.
      * symmetry. apply Z.leb_le.
        destruct (Z.leb_spec 0 e); [lia|].
        pose proof (pow2_le 23 (- e) ltac:(lia)) as Hp.
        change (2 ^ 23) with 8388608 in Hp.
        change (2 ^ 53) with 9007199254740992 in Hm.
        nia.
      * symmetry. apply Z.leb_gt. specialize (Hn ltac:(lia)).
        change (2 ^ 52) with 4503599627370496 in Hn.
        destruct (Z.leb_spec 0 e).
        -- pose proof (pow2_le 0 e ltac:(lia)) as Hp.
           change (2 ^ 0) with 1 in Hp. nia.
        -- pose proof (pow2_le (- e) 21 ltac:(lia)) as Hp.
           pose proof (Z.pow_pos_nonneg 2 (- e) ltac:(lia) ltac:(lia)).
           change (2 ^ 21) with 2097152 in Hp. nia.
Qed.

(** What [valueToPostgresType] computes on a Number, by its two tests. *)
Lemma valueToPostgresType_number (n : number) :
  valueToPostgresType (VNumber n)
  = if Number.isIntegralNumber (Number.repr n) then
      if Number.ge n MIN_INTEGER && Number.le n MAX_INTEGER
      then succeed "INTEGER" else succeed "BIGINT"
    else succeed "DOUBLE PRECISION".
Proof. reflexivity. Qed.

(** ** Type inference: [valueToPostgresType] *)

(** C1. For every numeric value: an integral value inside the signed 32-bit
    range [-2147483648, 2147483647] infers to "INTEGER", an integral value
    outside that range infers to "BIGINT", and a non-integral value infers to
    "DOUBLE PRECISION"; in particular 5000000000 infers to "BIGINT" and 3.14
    to "DOUBLE PRECISION". *)
Theorem valueToPostgresType_numeric (n : number) :
  (forall z, Number.is_Z (Number.repr n) z ->
             -2147483648 <= z <= 2147483647 ->
             valueToPostgresType (VNumber n) = succeed "INTEGER") /\
  (forall z, Number.is_Z (Number.repr n) z ->
             z < -2147483648 \/ 2147483647 < z ->
             valueToPostgresType (VNumber n) = succeed "BIGINT") /\
  (~ Number.integral n ->
   valueToPostgresType (VNumber n) = succeed "DOUBLE PRECISION") /\
  valueToPostgresType (VNumber five_billion) = succeed "BIGINT" /\
  valueToPostgresType (VNumber three_point_fourteen)
  = succeed "DOUBLE PRECISION".
Proof.
  rewrite valueToPostgresType_number.
  split; [|split; [|split; [|split; reflexivity]]].
  - intros z Hz Hr.
    rewrite (proj2 (isIntegralNumber_spec _) (ex_intro _ z Hz)).
    rewrite (in_integer_range_spec n z Hz).
    destruct (Z.leb_spec (-2147483648) z); [|lia].
    destruct (Z.leb_spec z 2147483647); [reflexivity|lia].
  - intros z Hz Hr.
    rewrite (proj2 (isIntegralNumber_spec _) (ex_intro _ z Hz)).
    rewrite (in_integer_range_spec n z Hz).
    destruct (Z.leb_spec (-2147483648) z);
      destruct (Z.leb_spec z 2147483647); try reflexivity; lia.
  - intros Hn.
    destruct (Number.isIntegralNumber (Number.repr n)) eqn:E; [|reflexivity].
    exfalso. apply Hn. apply isIntegralNumber_spec. exact E.
Qed.

Lemma valueToPostgresType_numeric_witness :
  valueToPostgresType (VNumber five_billion) = succeed "BIGINT".
Proof.
  apply (proj1 (proj2 (valueToPostgresType_numeric five_billion)) 5000000000).
  - reflexivity.
  - right. lia.
Defined.

(** C3. A [null] or [undefined] value infers to the nullable text default,
    "TEXT". *)
Theorem valueToPostgresType_null_undefined :
  valueToPostgresType VNull = succeed "TEXT" /\
  valueToPostgresType VUndefined = succeed "TEXT".
Proof. split; reflexivity. Qed.

(** C4. A [Date] instance infers to "TIMESTAMP WITH TIME ZONE", any other
    non-null object to "JSONB", a string to "TEXT" and a boolean to
    "BOOLEAN". *)
Theorem valueToPostgresType_supported_kinds (v : JSValue) :
  (instanceof_Date v = Normal true ->
   valueToPostgresType v = succeed "TIMESTAMP WITH TIME ZONE") /\
  (is_null v = false -> instanceof_Date v = Normal false ->
   typeof v = "object" ->
   valueToPostgresType v = succeed "JSONB") /\
  (typeof v = "string" -> valueToPostgresType v = succeed "TEXT") /\
  (typeof v = "boolean" -> valueToPostgresType v = succeed "BOOLEAN").
Proof.
  repeat split; destruct v; cbn [instanceof_Date is_null typeof];
    intros; try discriminate; try reflexivity;
    subst; destruct callable; try discriminate; reflexivity.
Qed.

Lemma valueToPostgresType_supported_kinds_witness :
  valueToPostgresType (VDate Number.zero) = succeed "TIMESTAMP WITH TIME ZONE" /\
  valueToPostgresType (VObject [("a", VNull)]) = succeed "JSONB" /\
  valueToPostgresType (VString "a") = succeed "TEXT" /\
  valueToPostgresType (VBoolean true) = succeed "BOOLEAN".
Proof.
  split; [|split; [|split]].
  - apply (proj1 (valueToPostgresType_supported_kinds (VDate Number.zero))).
    reflexivity.
  - apply (proj1 (proj2 (valueToPostgresType_supported_kinds
                           (VObject [("a", VNull)])))); reflexivity.
  - apply (proj1 (proj2 (proj2 (valueToPostgresType_supported_kinds
                                  (VString "a"))))); reflexivity.
  - apply (proj2 (proj2 (proj2 (valueToPostgresType_supported_kinds
                                  (VBoolean true))))); reflexivity.
Defined.










(** ** The heap operations *)

Lemma deref_lookup (h : heap) (l : loc) (o : PgTypeObj) :
  h !! l = Some o -> deref l h = Some (o, h).
Proof. intros H. unfold deref. rewrite H. reflexivity. Qed.

Lemma update_lookup (h : heap) (l : loc) (o o' : PgTypeObj) :
  h !! l = Some o -> update l o' h = Some (tt, <[l := o']> h).
Proof. intros H. unfold update. rewrite H. reflexivity. Qed.

(** Allocation returns a reference no object of the heap has. *)
Lemma alloc_fresh (h : heap) (o : PgTypeObj) :
  exists l, alloc o h = Some (l, <[l := o]> h) /\ h !! l = None.
Proof.
  exists (fresh (dom h)). split; [reflexivity|].
  apply not_elem_of_dom. apply is_fresh.
Qed.

Ltac unfold_M := unfold mbind, M_bind, mret, M_ret.

Lemma notNull_lookup (h : heap) (t : loc) (o : PgTypeObj) :
  h !! t = Some o ->
  PgType.notNull t h = Some (t, <[t := with_nullable false o]> h).
Proof.
  intros H. unfold PgType.notNull. unfold_M.
  rewrite (deref_lookup h t o H), (update_lookup h t o _ H). reflexivity.
Qed.

Lemma nullable_lookup (h : heap) (t : loc) (o : PgTypeObj) :
  h !! t = Some o ->
  PgType.nullable t h = Some (t, <[t := with_nullable true o]> h).
Proof.
  intros H. unfold PgType.nullable. unfold_M.
  rewrite (deref_lookup h t o H), (update_lookup h t o _ H). reflexivity.
Qed.

Lemma getNullable_lookup (h : heap) (t : loc) (o : PgTypeObj) :
  h !! t = Some o -> PgType.getNullable t h = Some (_nullable o, h).
Proof.
  intros H. unfold PgType.getNullable. unfold_M.
  rewrite (deref_lookup h t o H). reflexivity.
Qed.

Lemma getPostgresType_lookup (h : heap) (t : loc) (o : PgTypeObj) :
  h !! t = Some o -> PgType.getPostgresType t h = Some (_postgresType o, h).
Proof.
  intros H. unfold PgType.getPostgresType. unfold_M.
  rewrite (deref_lookup h t o H). reflexivity.
Qed.

Lemma toString_lookup (h : heap) (t : loc) (o : PgTypeObj) :
  h !! t = Some o ->
  PgType.toString t h
  = Some (_postgresType o ++ (if _nullable o then " " else " NOT NULL"), h).
Proof.
  intros H. unfold PgType.toString. unfold_M.
  rewrite (deref_lookup h t o H). reflexivity.
Qed.

Lemma new_fresh (postgresType : string) (h : heap) :
  exists t,
    PgType.new postgresType h
    = Some (t, <[t := {| _type := "PgType"; _nullable := true;
                         _postgresType := postgresType |}]> h) /\
    h !! t = None.
Proof. apply alloc_fresh. Qed.

(** ** The [PgType] class *)

(** C6, as stated: [notNull] and [nullable] leave the nullability observable
    on the receiver unchanged. This fails: both assign the receiver's own
    flag. *)
Lemma PgType_notNull_mutates_receiver :
  ~ (forall (h : heap) (t : loc) (o : PgTypeObj),
        h !! t = Some o ->
        forall (t' : loc) (h' : heap),
          PgType.notNull t h = Some (t', h') \/
          PgType.nullable t h = Some (t', h') ->
          PgType.getNullable t h' = Some (_nullable o, h')).
Proof.
  intros H.
  pose (o := {| _type := "PgType"; _nullable := true; _postgresType := "text" |}).
  pose (h := {[ 1%positive := o ]} : heap).
  assert (Ho : h !! 1%positive = Some o) by apply lookup_singleton_eq.
  specialize (H h 1%positive o Ho 1%positive _
                (or_introl (notNull_lookup h 1%positive o Ho))).
  rewrite (getNullable_lookup _ 1%positive (with_nullable false o)) in H
    by apply lookup_insert_eq.
  discriminate H.
Qed.

(** C6, amended. [PgType] is a fluent builder over a mutable flag: for every
    descriptor [t], [t.notNull()] sets the flag of [t] itself to false and
    [t.nullable()] sets it to true; each returns [t], not a new descriptor,
    so [t.getNullable()] afterwards reads the value just set. *)
Theorem PgType_notNull_nullable_in_place (h : heap) (t : loc) (o : PgTypeObj) :
  h !! t = Some o ->
  PgType.notNull t h = Some (t, <[t := with_nullable false o]> h) /\
  PgType.nullable t h = Some (t, <[t := with_nullable true o]> h) /\
  PgType.getNullable t (<[t := with_nullable false o]> h)
  = Some (false, <[t := with_nullable false o]> h) /\
  PgType.getNullable t (<[t := with_nullable true o]> h)
  = Some (true, <[t := with_nullable true o]> h).
Proof.
  intros H. split; [|split; [|split]].
  - apply notNull_lookup, H.
  - apply nullable_lookup, H.
  - apply (getNullable_lookup _ t (with_nullable false o)), lookup_insert_eq.
  - apply (getNullable_lookup _ t (with_nullable true o)), lookup_insert_eq.
Qed.

Lemma PgType_notNull_nullable_in_place_witness :
  let o := {| _type := "PgType"; _nullable := true; _postgresType := "text" |} in
  PgType.notNull 1%positive {[ 1%positive := o ]}
  = Some (1%positive, <[1%positive := with_nullable false o]> {[ 1%positive := o ]}).
Proof.
  intros o.
  apply (proj1 (PgType_notNull_nullable_in_place {[ 1%positive := o ]} 1%positive o
                  (lookup_singleton_eq 1%positive o))).
Defined.

(** C9. Every [pgType] factory builds a descriptor that is nullable; for
    every descriptor [t], [t.notNull().getNullable()] is false and
    [t.nullable().getNullable()] is true; calling [notNull] or [nullable]
    twice observes what calling it once does. *)
Theorem PgType_nullability_algebra (Number_toString : number -> string) :
  (forall (k : pgTypeKey) (h : heap),
      exists t h', pgType Number_toString k h = Some (t, h') /\
                   PgType.getNullable t h' = Some (true, h')) /\
  (forall (h : heap) (t : loc) (o : PgTypeObj),
      h !! t = Some o ->
      (t' ← PgType.notNull t; PgType.getNullable t') h
      = Some (false, <[t := with_nullable false o]> h) /\
      (t' ← PgType.nullable t; PgType.getNullable t') h
      = Some (true, <[t := with_nullable true o]> h) /\
      (t1 ← PgType.notNull t; t2 ← PgType.notNull t1; PgType.getNullable t2) h
      = (t1 ← PgType.notNull t; PgType.getNullable t1) h /\
      (t1 ← PgType.nullable t; t2 ← PgType.nullable t1; PgType.getNullable t2) h
      = (t1 ← PgType.nullable t; PgType.getNullable t1) h).
Proof.
  split.
  - intros k h. unfold pgType.
    destruct (new_fresh (pgTypeName Number_toString k) h) as (t & Ht & _).
    eexists t, _. split; [exact Ht|].
    rewrite (getNullable_lookup _ t _ (lookup_insert_eq _ _ _)). reflexivity.
  - intros h t o H.
    assert (Hn : forall b h0,
               <[t := with_nullable b o]> h0 !! t = Some (with_nullable b o))
      by (intros; apply lookup_insert_eq).
    unfold_M.
    rewrite (notNull_lookup h t o H), (nullable_lookup h t o H).
    rewrite (notNull_lookup _ t _ (Hn false h)).
    rewrite (nullable_lookup _ t _ (Hn true h)).
    rewrite !insert_insert_eq.
    change (with_nullable false (with_nullable false o))
      with (with_nullable false o).
    change (with_nullable true (with_nullable true o))
      with (with_nullable true o).
    rewrite (getNullable_lookup _ t _ (Hn false h)).
    rewrite (getNullable_lookup _ t _ (Hn true h)).
    repeat split; reflexivity.
Qed.

Lemma PgType_nullability_algebra_witness :
  let o := {| _type := "PgType"; _nullable := true; _postgresType := "text" |} in
  (t' ← PgType.notNull 1%positive; PgType.getNullable t') {[ 1%positive := o ]}
  = Some (false, <[1%positive := with_nullable false o]> {[ 1%positive := o ]}).
Proof.
  intros o.
  apply (proj1 (proj2 (PgType_nullability_algebra (fun _ => "10"))
                  {[ 1%positive := o ]} 1%positive o
                  (lookup_singleton_eq 1%positive o))).
Defined.

(** C10. [t.toString()] is [t.getPostgresType()] followed by one space when
    [t] is nullable, and followed by " NOT NULL" when it is not. *)
Theorem PgType_toString_spec (h : heap) (t : loc) (o : PgTypeObj) :
  h !! t = Some o ->
  exists p, PgType.getPostgresType t h = Some (p, h) /\
    (PgType.getNullable t h = Some (true, h) ->
     PgType.toString t h = Some (p ++ " ", h)) /\
    (PgType.getNullable t h = Some (false, h) ->
     PgType.toString t h = Some (p ++ " NOT NULL", h)).
Proof.
  intros H. exists (_postgresType o).
  rewrite (getPostgresType_lookup h t o H), (getNullable_lookup h t o H),
    (toString_lookup h t o H).
  split; [reflexivity|].
  split; intros E; injection E as ->; reflexivity.
Qed.

Lemma PgType_toString_spec_witness :
  PgType.toString 1%positive
    {[ 1%positive := {| _type := "PgType"; _nullable := false;
                        _postgresType := "text" |} ]}
  = Some ("text NOT NULL",
          {[ 1%positive := {| _type := "PgType"; _nullable := false;
                              _postgresType := "text" |} ]}).
Proof.
  destruct (PgType_toString_spec
              {[ 1%positive := {| _type := "PgType"; _nullable := false;
                                  _postgresType := "text" |} ]}
              1%positive _ (lookup_singleton_eq 1%positive _))
    as (p & Hp & _ & Hnn).
  injection Hp as <-. apply Hnn. reflexivity.
Defined.

(** ** The identity column: [postgresIdColumn] *)

Lemma postgresIdColumn_lookup (h : heap) (t : loc) (o : PgTypeObj) :
  h !! t = Some o ->
  postgresIdColumn (Some t) h
  = Some ("id " ++ string_or (Some (_postgresType o))
                     "BIGINT GENERATED ALWAYS AS IDENTITY" ++ " PRIMARY KEY", h).
Proof.
  intros H. unfold postgresIdColumn. unfold_M.
  rewrite (getPostgresType_lookup h t o H). reflexivity.
Qed.

(** C5, as stated: whenever a type is supplied the column is
    "id <its postgres type> PRIMARY KEY". This fails for a descriptor whose
    postgres type is the empty string, which [||] treats as absent. *)
Lemma postgresIdColumn_empty_type_falls_back :
  ~ (forall (h : heap) (t : loc) (o : PgTypeObj),
        h !! t = Some o ->
        postgresIdColumn (Some t) h
        = Some ("id " ++ _postgresType o ++ " PRIMARY KEY", h)).
Proof.
  intros H.
  pose (o := {| _type := "PgType"; _nullable := true; _postgresType := "" |}).
  specialize (H {[ 1%positive := o ]} 1%positive o
                (lookup_singleton_eq 1%positive o)).
  rewrite (postgresIdColumn_lookup _ 1%positive o
             (lookup_singleton_eq 1%positive o)) in H.
  discriminate H.
Qed.

(** C5, amended. With no argument the identity column is
    "id BIGINT GENERATED ALWAYS AS IDENTITY PRIMARY KEY"; with a descriptor
    whose postgres type is a non-empty string it is
    "id <its postgres type> PRIMARY KEY"; a descriptor whose postgres type is
    the empty string gives the same column as no argument. *)
Theorem postgresIdColumn_spec (h : heap) :
  postgresIdColumn None h
  = Some ("id BIGINT GENERATED ALWAYS AS IDENTITY PRIMARY KEY", h) /\
  (forall (t : loc) (o : PgTypeObj),
      h !! t = Some o -> _postgresType o <> "" ->
      postgresIdColumn (Some t) h
      = Some ("id " ++ _postgresType o ++ " PRIMARY KEY", h)) /\
  (forall (t : loc) (o : PgTypeObj),
      h !! t = Some o -> _postgresType o = "" ->
      postgresIdColumn (Some t) h = postgresIdColumn None h).
Proof.
  split; [reflexivity|]. split; intros t o H Hp;
    rewrite (postgresIdColumn_lookup h t o H).
  - destruct (_postgresType o); [congruence | reflexivity].
  - rewrite Hp. reflexivity.
Qed.

Lemma postgresIdColumn_spec_witness :
  let o := {| _type := "PgType"; _nullable := true; _postgresType := "uuid" |} in
  postgresIdColumn (Some 1%positive) {[ 1%positive := o ]}
  = Some ("id uuid PRIMARY KEY", {[ 1%positive := o ]}).
Proof.
  intros o.
  apply (proj1 (proj2 (postgresIdColumn_spec {[ 1%positive := o ]}))
           1%positive o (lookup_singleton_eq 1%positive o)).
  discriminate.
Defined.

(** ** The command handler *)

(** C7. When the three options are omitted, [typefusion] is called with the
    empty ignore list, [verbose = false] and [dryRun = false]; the directory
    is passed as given. An omitted option reaches the handler as [Some] of the
    default its own declaration has below [Options.optional]
    ([Options.boolean]: false, [Options.repeated]: the empty list), or as
    [None]; the handler maps both to the default. *)
Theorem command_defaults {R : Type} (typefusion : TypefusionConfig -> R)
    (dir : string) (globs : option (list string)) (v d : option bool) :
  globs = None \/ globs = Some [] ->
  v = None \/ v = Some false ->
  d = None \/ d = Some false ->
  command typefusion
    {| Cli.directory := dir; Cli.ignoreGlob := globs;
       Cli.verbose := v; Cli.dryRun := d |}
  = typefusion
      {| directory := dir; ignoreGlob := []; verbose := false;
         alwaysPrintExecutionGraph := true; dryRun := false |}.
Proof.
  intros [-> | ->] [-> | ->] [-> | ->]; reflexivity.
Qed.

Lemma command_defaults_witness :
  command (fun c => c)
    {| Cli.directory := "scripts"; Cli.ignoreGlob := Some [];
       Cli.verbose := Some false; Cli.dryRun := Some false |}
  = {| directory := "scripts"; ignoreGlob := []; verbose := false;
       alwaysPrintExecutionGraph := true; dryRun := false |}.
Proof.
  apply (command_defaults (fun c => c) "scripts" (Some []) (Some false)
           (Some false));
    right; reflexivity.
Defined.

(** ** Further properties of [valueToPostgresType] *)

(** On a Number of integer value [z] the result is decided by the 32-bit
    range alone. *)
Lemma valueToPostgresType_integral (n : number) (z : Z) :
  Number.is_Z (Number.repr n) z ->
  valueToPostgresType (VNumber n)
  = if (-2147483648 <=? z) && (z <=? 2147483647)
    then succeed "INTEGER" else succeed "BIGINT".
Proof.
  intros Hz. rewrite valueToPostgresType_number.
  rewrite (proj2 (isIntegralNumber_spec _) (ex_intro _ z Hz)).
  rewrite (in_integer_range_spec n z Hz). reflexivity.
Qed.

Lemma valueToPostgresType_fractional (n : number) :
  ~ Number.integral n ->
  valueToPostgresType (VNumber n) = succeed "DOUBLE PRECISION".
Proof.
  intros Hn. rewrite valueToPostgresType_number.
  destruct (Number.isIntegralNumber (Number.repr n)) eqn:E; [|reflexivity].
  exfalso. apply Hn. apply isIntegralNumber_spec. exact E.
Qed.

(** The three results on Numbers characterise the three classes: "INTEGER"
    is returned only for integers of the 32-bit range, "BIGINT" only for
    integers outside it, "DOUBLE PRECISION" only for non-integers. *)
Theorem valueToPostgresType_number_cases (n : number) :
  (valueToPostgresType (VNumber n) = succeed "INTEGER" <->
   exists z, Number.is_Z (Number.repr n) z /\
             -2147483648 <= z <= 2147483647) /\
  (valueToPostgresType (VNumber n) = succeed "BIGINT" <->
   exists z, Number.is_Z (Number.repr n) z /\
             (z < -2147483648 \/ 2147483647 < z)) /\
  (valueToPostgresType (VNumber n) = succeed "DOUBLE PRECISION" <->
   ~ Number.integral n).
Proof.
  destruct (Number.isIntegralNumber (Number.repr n)) eqn:E.
  - apply isIntegralNumber_spec in E. destruct E as [z Hz].
    pose proof (valueToPostgresType_integral n z Hz) as Hv.
    assert (Hcase : forall z', Number.is_Z (Number.repr n) z' ->
              ((-2147483648 <=? z') && (z' <=? 2147483647))
              = ((-2147483648 <=? z) && (z <=? 2147483647))).
    { intros z' Hz'. rewrite <- !(in_integer_range_spec n) by assumption.
      reflexivity. }
    destruct (Z.leb_spec (-2147483648) z) as [Hlo | Hlo];
      destruct (Z.leb_spec z 2147483647) as [Hhi | Hhi];
      cbn [andb] in Hv, Hcase; rewrite Hv.
    all: split; [|split].
    all: split;
      try discriminate;
      try (intros _; exists z; split; [exact Hz | lia]);
      try (intros (z' & Hz' & Hr); specialize (Hcase z' Hz');
           apply andb_false_iff in Hcase || apply andb_true_iff in Hcase;
           rewrite ?Z.leb_le, ?Z.leb_gt in Hcase; exfalso; lia);
      try reflexivity;
      try (intros Hn; exfalso; apply Hn; exists z; exact Hz).
  - assert (Hn : ~ Number.integral n).
    { intros H. apply isIntegralNumber_spec in H. congruence. }
    rewrite (valueToPostgresType_fractional n Hn).
    split; [|split]; split; try discriminate; try tauto;
      intros (z & Hz & _); exfalso; apply Hn; exists z; exact Hz.
Qed.

Lemma valueToPostgresType_number_cases_witness :
  exists z, Number.is_Z (Number.repr five_billion) z /\
            (z < -2147483648 \/ 2147483647 < z).
Proof.
  apply (proj1 (proj1 (proj2 (valueToPostgresType_number_cases five_billion)))).
  reflexivity.
Defined.

(** [NaN], [Infinity] and [-Infinity] are not integers for
    [Number.isInteger]: they infer to "DOUBLE PRECISION"; both zeros infer to
    "INTEGER". *)
Theorem valueToPostgresType_special_numbers (n : number) :
  (Number.repr n = S754_nan \/ (exists s, Number.repr n = S754_infinity s) ->
   valueToPostgresType (VNumber n) = succeed "DOUBLE PRECISION") /\
  ((exists s, Number.repr n = S754_zero s) ->
   valueToPostgresType (VNumber n) = succeed "INTEGER").
Proof.
  rewrite valueToPostgresType_number.
  destruct n as [f Hv]. unfold Number.ge, Number.le. cbn [Number.repr].
  split.
  - intros [-> | [s ->]]; reflexivity.
  - intros [s ->]. destruct s; reflexivity.
Qed.

Lemma valueToPostgresType_special_numbers_witness :
  valueToPostgresType (VNumber Number.NaN) = succeed "DOUBLE PRECISION" /\
  valueToPostgresType (VNumber Number.negative_zero) = succeed "INTEGER".
Proof.
  split.
  - apply (proj1 (valueToPostgresType_special_numbers Number.NaN)).
    left. reflexivity.
  - apply (proj2 (valueToPostgresType_special_numbers Number.negative_zero)).
    exists true. reflexivity.
Defined.

(** Every Number whose exponent is at least 12 is an integer of magnitude at
    least [2^64]: it is outside the signed 64-bit range and still infers to
    "BIGINT". *)
Theorem valueToPostgresType_beyond_64_bits
    (n : number) (s : bool) (m : positive) (e : Z) :
  Number.repr n = S754_finite s m e -> 12 <= e ->
  exists z, Number.is_Z (Number.repr n) z /\
            2 ^ 64 <= Z.abs z /\
            valueToPostgresType (VNumber n) = succeed "BIGINT".
Proof.
  intros Hr He.
  pose proof (Number.valid n) as Hv. rewrite Hr in Hv.
  apply valid_finite in Hv. destruct Hv as (_ & _ & Hn).
  specialize (Hn ltac:(lia)).
  exists (Number.signed s (Z.pos m * 2 ^ e)).
  assert (Hz : Number.is_Z (Number.repr n) (Number.signed s (Z.pos m * 2 ^ e))).
  { rewrite Hr. cbn [Number.is_Z].
    destruct (Z.leb_spec 0 e); [reflexivity | lia]. }
  assert (Hbig : 2 ^ 64 <= Z.pos m * 2 ^ e).
  { pose proof (pow2_le 12 e ltac:(lia)) as Hp.
    change (2 ^ 12) with 4096 in Hp.
    change (2 ^ 52) with 4503599627370496 in Hn.
    change (2 ^ 64) with 18446744073709551616. nia. }
  split; [exact Hz|]. split.
  - destruct s; cbn [Number.signed]; lia.
  - rewrite (valueToPostgresType_integral n _ Hz).
    change (2 ^ 64) with 18446744073709551616 in Hbig.
    destruct s; cbn [Number.signed].
    + destruct (Z.leb_spec (-2147483648) (- (Z.pos m * 2 ^ e)));
        [lia | reflexivity].
    + destruct (Z.leb_spec (Z.pos m * 2 ^ e) 2147483647);
        [lia | rewrite andb_false_r; reflexivity].
Qed.

Lemma valueToPostgresType_beyond_64_bits_witness :
  exists z, Number.is_Z (Number.repr MAX_VALUE) z /\
            2 ^ 64 <= Z.abs z /\
            valueToPostgresType (VNumber MAX_VALUE) = succeed "BIGINT".
Proof.
  apply (valueToPostgresType_beyond_64_bits MAX_VALUE false
           9007199254740991 971).
  - reflexivity.
  - lia.
Defined.

(** ** Further properties of the [PgType] class and the factories *)

Lemma getType_lookup (h : heap) (t : loc) (o : PgTypeObj) :
  h !! t = Some o -> PgType.getType t h = Some (_type o, h).
Proof.
  intros H. unfold PgType.getType. unfold_M.
  rewrite (deref_lookup h t o H). reflexivity.
Qed.

(** Every factory call builds a new object: configuring it with [notNull]
    leaves each descriptor that existed before exactly as it was. *)
Theorem pgType_no_aliasing (Number_toString : number -> string)
    (k : pgTypeKey) (h : heap) :
  exists t h',
    (t ← pgType Number_toString k; PgType.notNull t) h = Some (t, h') /\
    h !! t = None /\
    PgType.getNullable t h' = Some (false, h') /\
    (forall (l : loc) (o : PgTypeObj), h !! l = Some o -> h' !! l = Some o).
Proof.
  unfold pgType.
  destruct (new_fresh (pgTypeName Number_toString k) h) as (t & Ht & Hf).
  eexists t, _. unfold_M. rewrite Ht.
  rewrite (notNull_lookup _ t _ (lookup_insert_eq _ _ _)).
  rewrite insert_insert_eq.
  split; [reflexivity|]. split; [exact Hf|]. split.
  - rewrite (getNullable_lookup _ t _ (lookup_insert_eq _ _ _)). reflexivity.
  - intros l o Hl. rewrite lookup_insert_ne; [exact Hl | congruence].
Qed.

(** [notNull] and [nullable] change the flag of the receiver only: its
    postgres type and its tag stay, and no other descriptor is touched. *)
Theorem PgType_flag_frame (h : heap) (t : loc) (o : PgTypeObj) (b : bool) :
  h !! t = Some o ->
  exists h',
    (if b then PgType.nullable t h else PgType.notNull t h) = Some (t, h') /\
    PgType.getNullable t h' = Some (b, h') /\
    PgType.getPostgresType t h' = Some (_postgresType o, h') /\
    PgType.getType t h' = Some (_type o, h') /\
    (forall l : loc, l <> t -> h' !! l = h !! l).
Proof.
  intros H. exists (<[t := with_nullable b o]> h).
  assert (Hl : <[t := with_nullable b o]> h !! t = Some (with_nullable b o))
    by apply lookup_insert_eq.
  split; [destruct b; [apply nullable_lookup | apply notNull_lookup]; exact H|].
  rewrite (getNullable_lookup _ t _ Hl), (getPostgresType_lookup _ t _ Hl),
    (getType_lookup _ t _ Hl).
  repeat split. intros l Hne. apply lookup_insert_ne. congruence.
Qed.

Lemma PgType_flag_frame_witness :
  let o := {| _type := "PgType"; _nullable := true; _postgresType := "text" |} in
  exists h',
    PgType.notNull 1%positive {[ 1%positive := o ]} = Some (1%positive, h') /\
    PgType.getNullable 1%positive h' = Some (false, h') /\
    PgType.getPostgresType 1%positive h' = Some ("text", h') /\
    PgType.getType 1%positive h' = Some ("PgType", h') /\
    (forall l : loc, l <> 1%positive ->
                     h' !! l = ({[ 1%positive := o ]} : heap) !! l).
Proof.
  intros o.
  apply (PgType_flag_frame {[ 1%positive := o ]} 1%positive o false
           (lookup_singleton_eq 1%positive o)).
Defined.

(** The last call wins: [t.notNull().nullable()] does what [t.nullable()]
    does and [t.nullable().notNull()] what [t.notNull()] does; on a nullable
    descriptor [t.notNull().nullable()] restores the heap exactly. *)
Theorem PgType_last_call_wins (h : heap) (t : loc) (o : PgTypeObj) :
  h !! t = Some o ->
  (t1 ← PgType.notNull t; PgType.nullable t1) h = PgType.nullable t h /\
  (t1 ← PgType.nullable t; PgType.notNull t1) h = PgType.notNull t h /\
  (_nullable o = true ->
   (t1 ← PgType.notNull t; PgType.nullable t1) h = Some (t, h)).
Proof.
  intros H.
  assert (Hn : forall b,
             <[t := with_nullable b o]> h !! t = Some (with_nullable b o))
    by (intros; apply lookup_insert_eq).
  unfold_M.
  rewrite (notNull_lookup h t o H), (nullable_lookup h t o H).
  rewrite (notNull_lookup _ t _ (Hn true)), (nullable_lookup _ t _ (Hn false)).
  rewrite !insert_insert_eq.
  change (with_nullable true (with_nullable false o)) with (with_nullable true o).
  change (with_nullable false (with_nullable true o)) with (with_nullable false o).
  split; [reflexivity|]. split; [reflexivity|].
  intros Hb. f_equal. f_equal. apply insert_id.
  rewrite H. f_equal. destruct o as [ty nu pt]. cbn in Hb. subst nu. reflexivity.
Qed.

Lemma PgType_last_call_wins_witness :
  let o := {| _type := "PgType"; _nullable := true; _postgresType := "text" |} in
  (t1 ← PgType.notNull 1%positive; PgType.nullable t1) {[ 1%positive := o ]}
  = Some (1%positive, {[ 1%positive := o ]}).
Proof.
  intros o.
  apply (proj2 (proj2 (PgType_last_call_wins {[ 1%positive := o ]} 1%positive o
                         (lookup_singleton_eq 1%positive o)))).
  reflexivity.
Defined.

(** The getters, [toString] and [postgresIdColumn] never modify the heap. *)
Theorem PgType_readers_keep_heap (h h' : heap) (t : loc) :
  (forall b, PgType.getNullable t h = Some (b, h') -> h' = h) /\
  (forall s, PgType.getPostgresType t h = Some (s, h') -> h' = h) /\
  (forall s, PgType.getType t h = Some (s, h') -> h' = h) /\
  (forall s, PgType.toString t h = Some (s, h') -> h' = h) /\
  (forall type s, postgresIdColumn type h = Some (s, h') -> h' = h).
Proof.
  assert (Hd : forall l, deref l h = None \/ exists o, deref l h = Some (o, h)).
  { intros l. unfold deref. destruct (h !! l); eauto. }
  repeat split; intros x.
  1-4: unfold PgType.getNullable, PgType.getPostgresType, PgType.getType,
         PgType.toString; unfold_M;
       destruct (Hd t) as [-> | [o ->]]; [discriminate | congruence].
  intros s. unfold postgresIdColumn, PgType.getPostgresType. unfold_M.
  destruct x as [l|]; [|congruence].
  destruct (Hd l) as [-> | [o ->]]; [discriminate | congruence].
Qed.

Lemma PgType_readers_keep_heap_witness :
  let h := {[ 1%positive := {| _type := "PgType"; _nullable := true;
                               _postgresType := "text" |} ]} : heap in
  PgType.toString 1%positive h = Some ("text ", h) /\ h = h.
Proof.
  intros h. split; [reflexivity|].
  apply (proj1 (proj2 (proj2 (proj2 (PgType_readers_keep_heap h h 1%positive))))
           "text ").
  reflexivity.
Defined.

(** The tag written by the constructor is an invariant: the empty heap has
    it, [new], [notNull] and [nullable] keep it, and under it [getType]
    returns "PgType" for every descriptor. *)
Theorem PgType_tag_invariant (h : heap) :
  well_formed ∅ /\
  (well_formed h ->
   (forall s t h', PgType.new s h = Some (t, h') -> well_formed h') /\
   (forall t t' h', PgType.notNull t h = Some (t', h') -> well_formed h') /\
   (forall t t' h', PgType.nullable t h = Some (t', h') -> well_formed h') /\
   (forall t o, h !! t = Some o -> PgType.getType t h = Some ("PgType", h))).
Proof.
  split; [intros l o Hl; rewrite lookup_empty in Hl; discriminate|].
  intros Hwf.
  assert (Hins : forall t o, _type o = "PgType" ->
                             well_formed (<[t := o]> h)).
  { intros t o Ho l o' Hl. destruct (decide (t = l)) as [-> | Hne].
    - rewrite lookup_insert_eq in Hl. congruence.
    - rewrite lookup_insert_ne in Hl by exact Hne. exact (Hwf l o' Hl). }
  split; [|split; [|split]].
  - intros s t h' Hnew. injection Hnew as <- <-. apply Hins. reflexivity.
  - intros t t' h' Hnn. destruct (h !! t) as [o|] eqn:E.
    + rewrite (notNull_lookup h t o E) in Hnn. injection Hnn as <- <-.
      apply Hins. exact (Hwf t o E).
    + unfold PgType.notNull, mbind, M_bind, deref in Hnn. rewrite E in Hnn.
      discriminate.
  - intros t t' h' Hnn. destruct (h !! t) as [o|] eqn:E.
    + rewrite (nullable_lookup h t o E) in Hnn. injection Hnn as <- <-.
      apply Hins. exact (Hwf t o E).
    + unfold PgType.nullable, mbind, M_bind, deref in Hnn. rewrite E in Hnn.
      discriminate.
  - intros t o Ho. rewrite (getType_lookup h t o Ho), (Hwf t o Ho). reflexivity.
Qed.

Lemma PgType_tag_invariant_witness :
  well_formed
    (<[1%positive := {| _type := "PgType"; _nullable := true;
                        _postgresType := "text" |}]> ∅).
Proof.
  apply (proj1 (proj2 (PgType_tag_invariant ∅) (proj1 (PgType_tag_invariant ∅)))
           "text" 1%positive).
  reflexivity.
Defined.

(** No factory passes the empty string to the constructor. *)
Lemma pgTypeName_nonempty (Number_toString : number -> string) (k : pgTypeKey) :
  pgTypeName Number_toString k <> "".
Proof. destruct k; discriminate. Qed.

(** The column text of a descriptor straight from a factory is the factory's
    type name followed by one space; after [notNull] it is the name followed
    by " NOT NULL", and [nullable] after that brings the space back. *)
Theorem pgType_toString (Number_toString : number -> string)
    (k : pgTypeKey) (h : heap) :
  exists t h' h'',
    (t ← pgType Number_toString k; PgType.toString t) h
    = Some (pgTypeName Number_toString k ++ " ", h') /\
    (t ← pgType Number_toString k; t' ← PgType.notNull t; PgType.toString t') h
    = Some (pgTypeName Number_toString k ++ " NOT NULL", h'') /\
    (t ← pgType Number_toString k; t' ← PgType.notNull t;
     t'' ← PgType.nullable t'; PgType.toString t'') h
    = Some (pgTypeName Number_toString k ++ " ", h') /\
    h' !! t = Some {| _type := "PgType"; _nullable := true;
                      _postgresType := pgTypeName Number_toString k |} /\
    h !! t = None.
Proof.
  unfold pgType.
  destruct (new_fresh (pgTypeName Number_toString k) h) as (t & Ht & Hf).
  eexists t, _, _. unfold_M. rewrite Ht.
  rewrite (toString_lookup _ t _ (lookup_insert_eq _ _ _)).
  rewrite (notNull_lookup _ t _ (lookup_insert_eq _ _ _)).
  rewrite insert_insert_eq.
  rewrite (toString_lookup _ t _ (lookup_insert_eq _ _ _)).
  rewrite (nullable_lookup _ t _ (lookup_insert_eq _ _ _)).
  rewrite insert_insert_eq.
  rewrite (toString_lookup _ t _ (lookup_insert_eq _ _ _)).
  repeat split; try reflexivity; [apply lookup_insert_eq | exact Hf].
Qed.

(** ** Further properties of [postgresIdColumn] *)

(** For a descriptor straight from any factory, the identity column is
    "id <the factory's type name> PRIMARY KEY": no factory name is empty, so
    the default is never substituted. *)
Theorem postgresIdColumn_pgType (Number_toString : number -> string)
    (k : pgTypeKey) (h : heap) :
  exists h',
    (t ← pgType Number_toString k; postgresIdColumn (Some t)) h
    = Some ("id " ++ pgTypeName Number_toString k ++ " PRIMARY KEY", h').
Proof.
  unfold pgType.
  destruct (new_fresh (pgTypeName Number_toString k) h) as (t & Ht & _).
  exists (<[t := {| _type := "PgType"; _nullable := true;
                    _postgresType := pgTypeName Number_toString k |}]> h).
  unfold_M. rewrite Ht.
  rewrite (postgresIdColumn_lookup _ t _ (lookup_insert_eq _ _ _)).
  cbn [_postgresType].
  pose proof (pgTypeName_nonempty Number_toString k) as Hne.
  destruct (pgTypeName Number_toString k); [congruence | reflexivity].
Qed.

(** The identity column ignores nullability: [postgresIdColumn(t.notNull())]
    and [postgresIdColumn(t.nullable())] give the column of
    [postgresIdColumn(t)], without " NOT NULL". *)
Theorem postgresIdColumn_ignores_nullability
    (h : heap) (t : loc) (o : PgTypeObj) :
  h !! t = Some o ->
  exists c h1 h2,
    postgresIdColumn (Some t) h = Some (c, h) /\
    (t' ← PgType.notNull t; postgresIdColumn (Some t')) h = Some (c, h1) /\
    (t' ← PgType.nullable t; postgresIdColumn (Some t')) h = Some (c, h2).
Proof.
  intros H. eexists _, _, _. unfold_M.
  rewrite (postgresIdColumn_lookup h t o H).
  rewrite (notNull_lookup h t o H), (nullable_lookup h t o H).
  rewrite !(postgresIdColumn_lookup _ t _ (lookup_insert_eq _ _ _)).
  repeat split; reflexivity.
Qed.

Lemma postgresIdColumn_ignores_nullability_witness :
  let o := {| _type := "PgType"; _nullable := true; _postgresType := "uuid" |} in
  exists c h1 h2,
    postgresIdColumn (Some 1%positive) {[ 1%positive := o ]}
    = Some (c, {[ 1%positive := o ]}) /\
    (t' ← PgType.notNull 1%positive; postgresIdColumn (Some t'))
      {[ 1%positive := o ]} = Some (c, h1) /\
    (t' ← PgType.nullable 1%positive; postgresIdColumn (Some t'))
      {[ 1%positive := o ]} = Some (c, h2).
Proof.
  intros o.
  apply (postgresIdColumn_ignores_nullability {[ 1%positive := o ]} 1%positive o
           (lookup_singleton_eq 1%positive o)).
Defined.
